(** * Signalling relay of the screenshare server (src/server.ts)

    A shallow embedding of the WebSocket handlers of [src/server.ts] and the
    functions they call, followed by the properties of the session registry
    and of the routing of signalling messages.

    Modelling conventions.
    - A [ServerWebSocket] is a handle [ConnId]; its [data] and [readyState]
      live in the [World], next to the two module-level variables
      [viewerSockets] and [broadcasterSocket].
    - [viewerSockets] is a JavaScript [Map]: an association list in insertion
      order, since [forEach] visits the entries in that order.
    - What the relay does to the outside ([ws.send], [ws.close]) is recorded,
      in the order issued, as a list of [Effect]s returned by every handler.
      "Connection c receives m" is read as: the relay issues [Send c m].
    - [ws.close()] leaves the socket in a state other than [OPEN] and returns;
      the runtime reports the closure to the [close] handler as an event of
      its own ([Closed]), after the handler that called [ws.close()] is done.
    - [JSON.parse] and [crypto.randomUUID] belong to the runtime: an inbound
      frame is given by what [JSON.parse] makes of it, and the identifier that
      [crypto.randomUUID()] would return comes with the event.
    - [console] output is not modelled.
    - The HTTP handlers ([fetch], [serveFile], [promoteToWebSocket]) take
      from a [Host] what the runtime and the file system decide: the value of
      [PUBLIC_DIR], path resolution, file existence, the success of the
      upgrade. *)

From Stdlib Require Import List String Bool Arith Lia PrimFloat.
Import ListNotations.
Local Open Scope string_scope.
Local Open Scope list_scope.

(** ** Values *)

(** [type Role = "broadcaster" | "viewer"] *)
Inductive Role : Type := broadcaster | viewer.

(** What [JSON.parse] returns. Numbers are IEEE doubles. *)
#[local] Set Warnings "-register-all".
Inductive JSON : Type :=
| JNull
| JBool (b : bool)
| JNumber (x : float)
| JString (s : string)
| JArray (items : list JSON)
| JObject (fields : list (string * JSON)).

#[local] Set Warnings "register-all".

(** A JavaScript value read from a message: [None] is [undefined]. *)
Definition JSValue : Type := option JSON.

(** Lookup in an association list keyed by strings (an object's own
    properties, or the entries of a [Map<string, _>]). *)
Fixpoint assoc {V : Type} (k : string) (l : list (string * V)) : option V :=
  match l with
  | [] => None
  | (k', v) :: rest => if String.eqb k' k then Some v else assoc k rest
  end.

(** [v === "lit"] *)
Definition is_string (v : JSValue) (lit : string) : bool :=
  match v with
  | Some (JString s) => String.eqb s lit
  | _ => false
  end.

(** Truthiness of a string: only the empty string is falsy. *)
Definition truthy (s : string) : bool := negb (String.eqb s "").

(** ** Connections and the registry *)

Definition ConnId : Type := nat.

(** [type ConnectionData = { role?: Role; viewerId?: string }] *)
Record ConnectionData : Type := mkData {
  role : option Role;
  viewerId : option string
}.

(** [{}] *)
Definition empty_data : ConnectionData := mkData None None.

Inductive ReadyState : Type := CONNECTING | OPEN | CLOSING | CLOSED.

Definition is_open (r : ReadyState) : bool :=
  match r with OPEN => true | _ => false end.

(** The objects handed to [jsonMessage] (server to client). A field copied
    from an inbound message keeps whatever value the message had. *)
Inductive ServerMsg : Type :=
| RegisteredBroadcaster
| RegisteredViewer (id : string) (hasBroadcaster : bool)
| ViewerJoined (id : string)
| ViewerLeft (id : string)
| ViewerMissing (id : JSValue)
| Offer (id : JSValue) (sdp : JSValue)
| Answer (id : JSValue) (sdp : JSValue)
| Candidate (id : JSValue) (candidate : JSValue) (origin : Role)
| ViewerCount (count : nat)
| BroadcasterEnded
| Stopped
| Error (message : string).

Inductive Effect : Type :=
| Send (ws : ConnId) (m : ServerMsg)
| Close (ws : ConnId).

Record World : Type := mkWorld {
  viewerSockets : list (string * ConnId);
  broadcasterSocket : option ConnId;
  data : ConnId -> ConnectionData;
  readyState : ConnId -> ReadyState
}.

Definition upd {V : Type} (f : ConnId -> V) (k : ConnId) (v : V) : ConnId -> V :=
  fun k' => if Nat.eqb k' k then v else f k'.

(** [Map.prototype.set]: an existing key keeps its place. *)
Fixpoint map_set {V : Type} (k : string) (v : V) (l : list (string * V))
  : list (string * V) :=
  match l with
  | [] => [(k, v)]
  | (k', v') :: rest =>
      if String.eqb k' k then (k', v) :: rest else (k', v') :: map_set k v rest
  end.

(** [Map.prototype.delete] *)
Fixpoint map_delete {V : Type} (k : string) (l : list (string * V))
  : list (string * V) :=
  match l with
  | [] => []
  | (k', v') :: rest =>
      if String.eqb k' k then map_delete k rest else (k', v') :: map_delete k rest
  end.

(** ** Handlers as state transformers that may throw *)

Inductive Completion (A : Type) : Type :=
| Normal (a : A)
| Thrown (message : string).
Arguments Normal {A} a.
Arguments Thrown {A} message.

Record Outcome (A : Type) : Type := mkOutcome {
  completion : Completion A;
  world : World;
  effects : list Effect
}.
Arguments mkOutcome {A}.
Arguments completion {A}.
Arguments world {A}.
Arguments effects {A}.

Definition JS (A : Type) : Type := World -> Outcome A.

Definition ret {A : Type} (a : A) : JS A :=
  fun w => mkOutcome (Normal a) w [].

Definition bind {A B : Type} (m : JS A) (k : A -> JS B) : JS B :=
  fun w =>
    let r := m w in
    match completion r with
    | Normal a =>
        let r' := k a (world r) in
        mkOutcome (completion r') (world r') (effects r ++ effects r')
    | Thrown e => mkOutcome (Thrown e) (world r) (effects r)
    end.

Definition throw {A : Type} (e : string) : JS A :=
  fun w => mkOutcome (Thrown e) w [].

(** [try { body } catch (error) { handler(error.message) }] *)
Definition try_catch (body : JS unit) (handler : string -> JS unit) : JS unit :=
  fun w =>
    let r := body w in
    match completion r with
    | Normal a => r
    | Thrown e =>
        let r' := handler e (world r) in
        mkOutcome (completion r') (world r') (effects r ++ effects r')
    end.

Declare Scope js_scope.
Delimit Scope js_scope with js.
Notation "x <- m ;; k" := (bind m (fun x => k))
  (at level 61, m at next level, right associativity) : js_scope.
Notation "m ;; k" := (bind m (fun _ => k))
  (at level 61, right associativity) : js_scope.
Local Open Scope js_scope.

Definition gets {A : Type} (f : World -> A) : JS A :=
  fun w => mkOutcome (Normal (f w)) w [].

Definition modify (f : World -> World) : JS unit :=
  fun w => mkOutcome (Normal tt) (f w) [].

Definition emit (e : Effect) : JS unit :=
  fun w => mkOutcome (Normal tt) w [e].

Definition set_viewerSockets (m : list (string * ConnId)) (w : World) : World :=
  mkWorld m (broadcasterSocket w) (data w) (readyState w).

Definition set_broadcasterSocket (b : option ConnId) (w : World) : World :=
  mkWorld (viewerSockets w) b (data w) (readyState w).

Definition set_data (ws : ConnId) (d : ConnectionData) (w : World) : World :=
  mkWorld (viewerSockets w) (broadcasterSocket w) (upd (data w) ws d) (readyState w).

Definition set_readyState (ws : ConnId) (r : ReadyState) (w : World) : World :=
  mkWorld (viewerSockets w) (broadcasterSocket w) (data w) (upd (readyState w) ws r).

(** [ws.send(jsonMessage(m))]: hands the message to the socket; it does not
    throw, whatever the state of the socket. *)
Definition ws_send (ws : ConnId) (m : ServerMsg) : JS unit := emit (Send ws m).

(** [ws.close()] *)
Definition ws_close (ws : ConnId) : JS unit :=
  modify (set_readyState ws CLOSED) ;; emit (Close ws).

(** [viewerSockets.forEach((ws, viewerId) => body)] over the entries [l]. *)
Fixpoint for_each (l : list (string * ConnId)) (body : ConnId -> string -> JS unit)
  : JS unit :=
  match l with
  | [] => ret tt
  | (id, ws) :: rest => body ws id ;; for_each rest body
  end.

(** ** The functions of server.ts *)

Definition broadcastViewerCount : JS unit :=
  vs <- gets viewerSockets ;;
  let payload := ViewerCount (List.length vs) in
  for_each vs (fun ws _ => ws_send ws payload) ;;
  b <- gets broadcasterSocket ;;
  match b with
  | Some bws =>
      st <- gets (fun w => readyState w bws) ;;
      if is_open st then ws_send bws payload else ret tt
  | None => ret tt
  end.

Definition ensureBroadcaster (ws : ConnId) : JS unit :=
  d <- gets (fun w => data w ws) ;;
  match role d with
  | Some broadcaster => ret tt
  | _ => throw "Only the broadcaster may perform this action"
  end.

Definition ensureViewer (ws : ConnId) : JS unit :=
  d <- gets (fun w => data w ws) ;;
  match role d, viewerId d with
  | Some viewer, Some id =>
      if truthy id then ret tt
      else throw "Only a registered viewer may perform this action"
  | _, _ => throw "Only a registered viewer may perform this action"
  end.

(** [Boolean(broadcasterSocket)] *)
Definition Boolean (b : option ConnId) : bool :=
  match b with Some _ => true | None => false end.

Definition takeover_notice : string := "Another broadcaster took over the session.".

(** [handleRegister(ws, role)]; [uuid] is what [crypto.randomUUID()] returns
    when the viewer branch calls it. *)
Definition handleRegister (ws : ConnId) (r : JSValue) (uuid : string) : JS unit :=
  if is_string r "broadcaster" then
    b <- gets broadcasterSocket ;;
    match b with
    | Some old =>
        st <- gets (fun w => readyState w old) ;;
        if is_open st
        then ws_send old (Error takeover_notice) ;; ws_close old
        else ret tt
    | None => ret tt
    end ;;
    d <- gets (fun w => data w ws) ;;
    modify (set_data ws (mkData (Some broadcaster) (viewerId d))) ;;
    modify (set_broadcasterSocket (Some ws)) ;;
    ws_send ws RegisteredBroadcaster ;;
    vs <- gets viewerSockets ;;
    for_each vs (fun _ id => ws_send ws (ViewerJoined id))
  else
    modify (set_data ws (mkData (Some viewer) (Some uuid))) ;;
    vs <- gets viewerSockets ;;
    modify (set_viewerSockets (map_set uuid ws vs)) ;;
    b <- gets broadcasterSocket ;;
    ws_send ws (RegisteredViewer uuid (Boolean b)) ;;
    match b with
    | Some bws => ws_send bws (ViewerJoined uuid)
    | None => ret tt
    end ;;
    broadcastViewerCount.

(** [viewerSockets.get(viewerId)]: only a string can be a key of the map. *)
Definition get_viewer (id : JSValue) (vs : list (string * ConnId)) : option ConnId :=
  match id with
  | Some (JString s) => assoc s vs
  | _ => None
  end.

Definition forwardOffer (id sdp : JSValue) : JS unit :=
  vs <- gets viewerSockets ;;
  match get_viewer id vs with
  | None =>
      b <- gets broadcasterSocket ;;
      match b with
      | Some bws => ws_send bws (ViewerMissing id)
      | None => ret tt
      end
  | Some viewerWs => ws_send viewerWs (Offer id sdp)
  end.

Definition forwardAnswer (id sdp : JSValue) : JS unit :=
  b <- gets broadcasterSocket ;;
  match b with
  | None => ret tt
  | Some bws => ws_send bws (Answer id sdp)
  end.

Definition forwardCandidateToViewer (id candidate : JSValue) : JS unit :=
  vs <- gets viewerSockets ;;
  match get_viewer id vs with
  | Some viewerWs => ws_send viewerWs (Candidate id candidate broadcaster)
  | None => ret tt
  end.

Definition forwardCandidateToBroadcaster (id candidate : JSValue) : JS unit :=
  b <- gets broadcasterSocket ;;
  match b with
  | Some bws => ws_send bws (Candidate id candidate viewer)
  | None => ret tt
  end.

(** The loop shared by [stopBroadcast] and the [close] handler:
    [viewerSockets.forEach((viewerWs) => { viewerWs.send(...); viewerWs.close(); })] *)
Definition end_viewers : JS unit :=
  vs <- gets viewerSockets ;;
  for_each vs (fun viewerWs _ => ws_send viewerWs BroadcasterEnded ;; ws_close viewerWs).

Definition stopBroadcast : JS unit :=
  b <- gets broadcasterSocket ;;
  match b with
  | None => ret tt
  | Some bws =>
      end_viewers ;;
      modify (set_viewerSockets []) ;;
      ws_send bws Stopped ;;
      broadcastViewerCount
  end.

(** ** The WebSocket handlers *)

(** What [JSON.parse(decodeMessage(rawMessage))] does with a frame. *)
Inductive Inbound : Type :=
| Unparseable (syntaxError : string)
| Parsed (message : JSON).

(** The message of the [TypeError] raised by reading a property of [null]. *)
Definition null_property_error : string :=
  "null is not an object (evaluating 'message.type')".

(** [message.key] *)
Definition prop (message : JSON) (key : string) : JSValue :=
  match message with
  | JObject fields => assoc key fields
  | _ => None
  end.

(** [open(ws) { ws.data = {}; }] *)
Definition open (ws : ConnId) : JS unit :=
  modify (set_data ws empty_data).

(** The [switch (message.type)] statement of the [message] handler; the
    [default] case only writes to the console. *)
Definition switch_type (ws : ConnId) (msg : JSON) (uuid : string) : JS unit :=
  let type := prop msg "type" in
  if is_string type "register" then
    handleRegister ws (prop msg "role") uuid
  else if is_string type "offer" then
    ensureBroadcaster ws ;;
    forwardOffer (prop msg "viewerId") (prop msg "sdp")
  else if is_string type "answer" then
    ensureViewer ws ;;
    forwardAnswer (prop msg "viewerId") (prop msg "sdp")
  else if is_string type "candidate" then
    if is_string (prop msg "origin") "broadcaster" then
      ensureBroadcaster ws ;;
      forwardCandidateToViewer (prop msg "viewerId") (prop msg "candidate")
    else
      ensureViewer ws ;;
      forwardCandidateToBroadcaster (prop msg "viewerId") (prop msg "candidate")
  else if is_string type "stop" then
    ensureBroadcaster ws ;;
    stopBroadcast
  else ret tt.

(** [message(ws, rawMessage)]: [JSON.parse] may throw a [SyntaxError], reading
    [message.type] throws a [TypeError] when the frame is the JSON [null];
    the [catch] block reports the error's message to the sender. *)
Definition message (ws : ConnId) (raw : Inbound) (uuid : string) : JS unit :=
  try_catch
    (match raw with
     | Unparseable e => throw e
     | Parsed JNull => throw null_property_error
     | Parsed msg => switch_type ws msg uuid
     end)
    (fun e => ws_send ws (Error e)).

(** [close(ws)] *)
Definition close (ws : ConnId) : JS unit :=
  d <- gets (fun w => data w ws) ;;
  match role d, viewerId d with
  | Some broadcaster, _ =>
      modify (set_broadcasterSocket None) ;;
      end_viewers ;;
      modify (set_viewerSockets []) ;;
      broadcastViewerCount
  | Some viewer, Some id =>
      if truthy id then
        vs <- gets viewerSockets ;;
        modify (set_viewerSockets (map_delete id vs)) ;;
        b <- gets broadcasterSocket ;;
        match b with
        | Some bws => ws_send bws (ViewerLeft id)
        | None => ret tt
        end ;;
        broadcastViewerCount
      else ret tt
  | _, _ => ret tt
  end.

(** ** Events delivered by the runtime *)

Inductive Event : Type :=
| Opened (ws : ConnId)
| Received (ws : ConnId) (raw : Inbound) (uuid : string)
| Closed (ws : ConnId).

(** The runtime opens a socket before [open] runs and has it closed by the
    time [close] runs. *)
Definition dispatch (e : Event) : JS unit :=
  match e with
  | Opened ws => modify (set_readyState ws OPEN) ;; open ws
  | Received ws raw uuid => message ws raw uuid
  | Closed ws => modify (set_readyState ws CLOSED) ;; close ws
  end.

Fixpoint run (es : list Event) : JS unit :=
  match es with
  | [] => ret tt
  | e :: rest => dispatch e ;; run rest
  end.

(** The relay at process start. *)
Definition initial : World :=
  mkWorld [] None (fun _ => empty_data) (fun _ => CONNECTING).

(** The frames the clients send. *)
Definition register_msg (r : Role) : Inbound :=
  Parsed (JObject [("type", JString "register");
                   ("role", JString (match r with
                                     | broadcaster => "broadcaster"
                                     | viewer => "viewer"
                                     end))]).

Definition offer_msg (id : string) (sdp : JSON) : Inbound :=
  Parsed (JObject [("type", JString "offer"); ("viewerId", JString id); ("sdp", sdp)]).

Definition answer_msg (id : string) (sdp : JSON) : Inbound :=
  Parsed (JObject [("type", JString "answer"); ("viewerId", JString id); ("sdp", sdp)]).

Definition stop_msg : Inbound :=
  Parsed (JObject [("type", JString "stop")]).

(** ** Traces, closed forms and sample sessions *)

(** The messages the relay sends to [ws] in a trace, in order. *)
Fixpoint received (ws : ConnId) (es : list Effect) : list ServerMsg :=
  match es with
  | [] => []
  | Send c m :: rest =>
      if Nat.eqb c ws then m :: received ws rest else received ws rest
  | Close _ :: rest => received ws rest
  end.


(** The sockets held by the viewer map. *)
Definition sockets (vs : list (string * ConnId)) : list ConnId := map snd vs.

(** The trace of the loop that ends the viewers. *)
Definition ended (vs : list (string * ConnId)) : list Effect :=
  flat_map (fun p => [Send (snd p) BroadcasterEnded; Close (snd p)]) vs.

(** The sockets of [vs] marked closed, first entry first. *)
Fixpoint close_all (vs : list (string * ConnId)) (w : World) : World :=
  match vs with
  | [] => w
  | (_, ws) :: rest => close_all rest (set_readyState ws CLOSED w)
  end.

(** The trace of [broadcastViewerCount]. *)
Definition count_trace (w : World) : list Effect :=
  let payload := ViewerCount (List.length (viewerSockets w)) in
  map (fun p => Send (snd p) payload) (viewerSockets w) ++
  match broadcasterSocket w with
  | Some bws => if is_open (readyState w bws) then [Send bws payload] else []
  | None => []
  end.

(** The outcome [r] with the trace [es] issued before it. *)
Definition after (es : list Effect) {A : Type} (r : Outcome A) : Outcome A :=
  mkOutcome (completion r) (world r) (es ++ effects r).

(** The registry once the viewers have been ended and the map cleared. *)
Definition cleared (w : World) : World :=
  set_viewerSockets [] (close_all (viewerSockets w) w).

(** The precondition checked by [ensureViewer]. *)
Definition is_viewer (d : ConnectionData) : bool :=
  match role d, viewerId d with
  | Some viewer, Some id => truthy id
  | _, _ => false
  end.

(** A broadcaster (0) with two viewers (1 and 2). *)
Definition demo_session : World :=
  world (run [Opened 0; Received 0 (register_msg broadcaster) "";
              Opened 1; Received 1 (register_msg viewer) "v1";
              Opened 2; Received 2 (register_msg viewer) "v2"] initial).

(** Whether a message is a [viewer-left] notice. *)
Definition is_viewer_left (m : ServerMsg) : bool :=
  match m with ViewerLeft _ => true | _ => false end.

(** What the broadcaster slot is sent, if it holds a socket. *)
Definition to_broadcaster (w : World) (m : ServerMsg) : list Effect :=
  match broadcasterSocket w with
  | Some bws => [Send bws m]
  | None => []
  end.

(** The incumbent of the broadcaster slot, if it is to be displaced. *)
Definition incumbent (w : World) : option ConnId :=
  match broadcasterSocket w with
  | Some old => if is_open (readyState w old) then Some old else None
  | None => None
  end.

(** The trace of the takeover at the head of [handleRegister]. *)
Definition evict_trace (w : World) : list Effect :=
  match incumbent w with
  | Some old => [Send old (Error takeover_notice); Close old]
  | None => []
  end.

(** The world after that takeover. *)
Definition evict (w : World) : World :=
  match incumbent w with
  | Some old => set_readyState old CLOSED w
  | None => w
  end.

(** The world after [handleRegister(ws, "broadcaster")]. *)
Definition as_broadcaster (ws : ConnId) (w : World) : World :=
  set_broadcasterSocket (Some ws)
    (set_data ws (mkData (Some broadcaster) (viewerId (data w ws))) (evict w)).

(** The world after [handleRegister(ws, role)] for any other [role]. *)
Definition as_viewer (ws : ConnId) (uuid : string) (w : World) : World :=
  set_viewerSockets (map_set uuid ws (viewerSockets w))
    (set_data ws (mkData (Some viewer) (Some uuid)) w).


(** A run of broadcaster registrations: who registers, in order. *)
Definition registrations (cs : list ConnId) : list Event :=
  map (fun c => Received c (register_msg broadcaster) "") cs.

(** Three sockets, open and not yet registered. *)
Definition three_open : World :=
  world (run [Opened 0; Opened 1; Opened 2] initial).

(** The cases of the [switch] that start with [ensureBroadcaster(ws)]. *)
Definition needs_broadcaster (msg : JSON) : bool :=
  let type := prop msg "type" in
  is_string type "offer"
  || is_string type "stop"
  || (is_string type "candidate" && is_string (prop msg "origin") "broadcaster").

(** The cases of the [switch] that start with [ensureViewer(ws)]. *)
Definition needs_viewer (msg : JSON) : bool :=
  let type := prop msg "type" in
  is_string type "answer"
  || (is_string type "candidate"
      && negb (is_string (prop msg "origin") "broadcaster")).

(** Whether [message.type] is one of the [case] labels of the [switch]. *)
Definition known_type (msg : JSON) : bool :=
  let type := prop msg "type" in
  is_string type "register" || is_string type "offer" || is_string type "answer"
  || is_string type "candidate" || is_string type "stop".

(** The frames that make the [try] block throw, with the error's message:
    text that is not JSON, the JSON [null], and a message of a guarded type
    from a sender that fails the guard. *)
Inductive Rejected (w : World) (ws : ConnId) : Inbound -> string -> Prop :=
| rejected_syntax (e : string) :
    Rejected w ws (Unparseable e) e
| rejected_null :
    Rejected w ws (Parsed JNull) null_property_error
| rejected_not_broadcaster (msg : JSON) :
    needs_broadcaster msg = true ->
    role (data w ws) <> Some broadcaster ->
    Rejected w ws (Parsed msg) "Only the broadcaster may perform this action"
| rejected_not_viewer (msg : JSON) :
    needs_viewer msg = true ->
    is_viewer (data w ws) = false ->
    Rejected w ws (Parsed msg) "Only a registered viewer may perform this action".


(** ** The outcomes of the [message] handler *)

(** Whether a message is a [viewer-count] notice. *)
Definition is_viewer_count (m : ServerMsg) : bool :=
  match m with ViewerCount _ => true | _ => false end.

(** The messages a routing case or the [catch] block can send. *)
Definition is_relayed (m : ServerMsg) : bool :=
  match m with
  | Error _ | Offer _ _ | Answer _ _ | Candidate _ _ _ | ViewerMissing _ => true
  | _ => false
  end.

(** The cases of the [switch] that only forward. *)
Definition is_routing (msg : JSON) : bool :=
  let type := prop msg "type" in
  is_string type "offer" || is_string type "answer" || is_string type "candidate".


(** The identifiers in the viewer map, in map order. *)
Definition viewer_ids (w : World) : list string := map fst (viewerSockets w).



(** ** The HTTP side *)

Inductive Body : Type :=
| NoBody
| TextBody (text : string)
| FileBody (path : string).

(** [new Response(body, { status })]; the status defaults to 200. *)
Record Response : Type := mkResponse {
  status : nat;
  body : Body
}.

(** What the HTTP handlers get from the runtime and the file system:
    the constant [PUBLIC_DIR], [resolve(join(PUBLIC_DIR, pathname))],
    [await Bun.file(filePath).exists()], and whether
    [server.upgrade(req, { data: {} })] succeeds for the request. *)
Record Host : Type := mkHost {
  PUBLIC_DIR : string;
  resolve_join : string -> string;
  file_exists : string -> bool;
  upgrade : bool
}.

(** [promoteToWebSocket(req, server)]; [None] is [undefined]. *)
Definition promoteToWebSocket (h : Host) : option Response :=
  if upgrade h then None
  else Some (mkResponse 500 (TextBody "Upgrade failed")).

(** [serveFile(pathname)] *)
Definition serveFile (h : Host) (pathname : string) : Response :=
  let filePath := resolve_join h pathname in
  if negb (String.prefix (PUBLIC_DIR h) filePath) then
    mkResponse 403 (TextBody "Forbidden")
  else if negb (file_exists h filePath) then
    mkResponse 404 (TextBody "Not Found")
  else mkResponse 200 (FileBody filePath).

(** The character [/]. *)
Definition slash : Ascii.ascii := Ascii.ascii_of_nat 47.

(** [pathname.replace(/^\/+/, "")] *)
Fixpoint strip_leading_slashes (s : string) : string :=
  match s with
  | String c rest =>
      if Ascii.eqb c slash then strip_leading_slashes rest else s
  | EmptyString => s
  end.

(** The [fetch] handler, on [new URL(req.url).pathname]. *)
Definition fetch (h : Host) (pathname : string) : Response :=
  if String.eqb pathname "/ws" then
    match promoteToWebSocket h with
    | Some response => response
    | None => mkResponse 101 NoBody
    end
  else if String.eqb pathname "/" then serveFile h "index.html"
  else if String.eqb pathname "/viewer" then serveFile h "viewer.html"
  else serveFile h (strip_leading_slashes pathname).

(** A host whose public directory holds the two pages and one script, and
    whose requests carry no dot segments, so that resolving is appending. *)
Definition demo_host : Host :=
  mkHost "/app/public"
    (fun pathname => String.append "/app/public/" pathname)
    (fun p => String.eqb p "/app/public/index.html"
              || String.eqb p "/app/public/viewer.html"
              || String.eqb p "/app/public/js/viewer.js")
    true.

(** * Properties *)

(** The scenario that closes the list of testable properties: a broadcaster
    and one viewer register, exchange an offer and an answer, and the viewer
    leaves. *)
Example run_session :
  effects (run [Opened 0; Received 0 (register_msg broadcaster) "";
                Opened 1; Received 1 (register_msg viewer) "v1";
                Received 0 (offer_msg "v1" (JString "sdpA")) "";
                Received 1 (answer_msg "v1" (JString "sdpB")) "";
                Closed 1] initial)
  = [Send 0 RegisteredBroadcaster;
     Send 1 (RegisteredViewer "v1" true); Send 0 (ViewerJoined "v1");
     Send 1 (ViewerCount 1); Send 0 (ViewerCount 1);
     Send 1 (Offer (Some (JString "v1")) (Some (JString "sdpA")));
     Send 0 (Answer (Some (JString "v1")) (Some (JString "sdpB")));
     Send 0 (ViewerLeft "v1"); Send 0 (ViewerCount 0)].
Proof. reflexivity. Qed.

(** ** Equations of the monad *)

Lemma after_nil {A : Type} (r : Outcome A) : after [] r = r.
Proof. destruct r; reflexivity. Qed.

Lemma after_mk {A : Type} es (c : Completion A) w es' :
  after es (mkOutcome c w es') = mkOutcome c w (es ++ es').
Proof. reflexivity. Qed.

Lemma bind_run {A B : Type} (m : JS A) (k : A -> JS B) w a w1 es :
  m w = mkOutcome (Normal a) w1 es ->
  bind m k w = after es (k a w1).
Proof. intro E. unfold bind, after. rewrite E. reflexivity. Qed.

Lemma bind_thrown {A B : Type} (m : JS A) (k : A -> JS B) w e w1 es :
  m w = mkOutcome (Thrown e) w1 es ->
  bind m k w = mkOutcome (Thrown e) w1 es.
Proof. intro E. unfold bind. rewrite E. reflexivity. Qed.

Lemma bind_gets {A B : Type} (f : World -> A) (k : A -> JS B) w :
  bind (gets f) k w = k (f w) w.
Proof. rewrite (bind_run _ _ w (f w) w []) by reflexivity. apply after_nil. Qed.

Lemma bind_modify {B : Type} (f : World -> World) (k : unit -> JS B) w :
  bind (modify f) k w = k tt (f w).
Proof. rewrite (bind_run _ _ w tt (f w) []) by reflexivity. apply after_nil. Qed.

Lemma bind_send {B : Type} ws m (k : unit -> JS B) w :
  bind (ws_send ws m) k w = after [Send ws m] (k tt w).
Proof. apply bind_run. reflexivity. Qed.

Lemma bind_ret {A B : Type} (a : A) (k : A -> JS B) w : bind (ret a) k w = k a w.
Proof. rewrite (bind_run _ _ w a w []) by reflexivity. apply after_nil. Qed.

Lemma try_catch_normal body handler w w1 es :
  body w = mkOutcome (Normal tt) w1 es ->
  try_catch body handler w = mkOutcome (Normal tt) w1 es.
Proof. intro E. unfold try_catch. rewrite E. reflexivity. Qed.

Lemma try_catch_same body handler w a :
  completion (body w) = Normal a -> try_catch body handler w = body w.
Proof. intro E. unfold try_catch. rewrite E. reflexivity. Qed.

Lemma try_catch_thrown body handler w e w1 es :
  body w = mkOutcome (Thrown e) w1 es ->
  try_catch body handler w = after es (handler e w1).
Proof. intro E. unfold try_catch, after. rewrite E. reflexivity. Qed.

(** ** The loops and the count broadcast *)

Lemma for_each_send (payload : ServerMsg) (vs : list (string * ConnId)) (w : World) :
  for_each vs (fun ws _ => ws_send ws payload) w
  = mkOutcome (Normal tt) w (map (fun p => Send (snd p) payload) vs).
Proof.
  induction vs as [|[id ws] rest IH]; [reflexivity|].
  cbn [for_each]. rewrite bind_send, IH. reflexivity.
Qed.

Lemma for_each_joined (ws : ConnId) (vs : list (string * ConnId)) (w : World) :
  for_each vs (fun _ id => ws_send ws (ViewerJoined id)) w
  = mkOutcome (Normal tt) w (map (fun p => Send ws (ViewerJoined (fst p))) vs).
Proof.
  induction vs as [|[id c] rest IH]; [reflexivity|].
  cbn [for_each]. rewrite bind_send, IH. reflexivity.
Qed.

Lemma for_each_end (vs : list (string * ConnId)) (w : World) :
  for_each vs (fun viewerWs _ => ws_send viewerWs BroadcasterEnded ;; ws_close viewerWs) w
  = mkOutcome (Normal tt) (close_all vs w) (ended vs).
Proof.
  revert w. induction vs as [|[id c] rest IH]; intro w; [reflexivity|].
  cbn [for_each].
  rewrite (bind_run _ _ w tt (set_readyState c CLOSED w)
             [Send c BroadcasterEnded; Close c]) by reflexivity.
  rewrite IH. reflexivity.
Qed.

Lemma end_viewers_eq (w : World) :
  end_viewers w
  = mkOutcome (Normal tt) (close_all (viewerSockets w) w) (ended (viewerSockets w)).
Proof. unfold end_viewers. rewrite bind_gets. apply for_each_end. Qed.

Lemma broadcastViewerCount_eq (w : World) :
  broadcastViewerCount w = mkOutcome (Normal tt) w (count_trace w).
Proof.
  unfold broadcastViewerCount, count_trace. rewrite bind_gets. cbn zeta.
  rewrite (bind_run _ _ _ _ _ _ (for_each_send _ _ _)), bind_gets.
  destruct (broadcasterSocket w) as [bws|]; [|reflexivity].
  rewrite bind_gets. destruct (is_open (readyState w bws)); reflexivity.
Qed.

(** [close_all] touches nothing but [readyState]. *)
Lemma close_all_viewerSockets vs w : viewerSockets (close_all vs w) = viewerSockets w.
Proof. revert w; induction vs as [|[id c] rest IH]; intro w; cbn; [|rewrite IH]; reflexivity. Qed.

Lemma close_all_broadcasterSocket vs w :
  broadcasterSocket (close_all vs w) = broadcasterSocket w.
Proof. revert w; induction vs as [|[id c] rest IH]; intro w; cbn; [|rewrite IH]; reflexivity. Qed.




(** ** Reading the trace of the loop that ends the viewers *)

Lemma received_app ws es1 es2 :
  received ws (es1 ++ es2) = received ws es1 ++ received ws es2.
Proof.
  induction es1 as [|[c m|c] rest IH]; cbn; [reflexivity| |exact IH].
  destruct (Nat.eqb c ws); cbn; rewrite IH; reflexivity.
Qed.







(** ** Closed forms of the handlers *)

Lemma close_broadcaster_eq (w : World) (ws : ConnId) :
  role (data w ws) = Some broadcaster ->
  close ws w
  = mkOutcome (Normal tt) (cleared (set_broadcasterSocket None w))
      (ended (viewerSockets w)).
Proof.
  intro Hrole. unfold close. rewrite bind_gets, Hrole, bind_modify.
  rewrite (bind_run _ _ _ _ _ _ (end_viewers_eq _)), bind_modify.
  rewrite broadcastViewerCount_eq. unfold count_trace, cleared; cbn.
  rewrite close_all_broadcasterSocket; cbn.
  rewrite after_mk, app_nil_r. reflexivity.
Qed.



Lemma ensureBroadcaster_ok (w : World) (ws : ConnId) :
  role (data w ws) = Some broadcaster ->
  ensureBroadcaster ws w = mkOutcome (Normal tt) w [].
Proof. intro H. unfold ensureBroadcaster. rewrite bind_gets, H. reflexivity. Qed.

Lemma ensureBroadcaster_fails (w : World) (ws : ConnId) :
  role (data w ws) <> Some broadcaster ->
  ensureBroadcaster ws w
  = mkOutcome (Thrown "Only the broadcaster may perform this action") w [].
Proof.
  intro H. unfold ensureBroadcaster. rewrite bind_gets.
  destruct (role (data w ws)) as [[|]|]; [congruence|reflexivity|reflexivity].
Qed.

Lemma ensureViewer_ok (w : World) (ws : ConnId) :
  is_viewer (data w ws) = true ->
  ensureViewer ws w = mkOutcome (Normal tt) w [].
Proof.
  unfold is_viewer, ensureViewer. rewrite bind_gets.
  destruct (role (data w ws)) as [[|]|]; try discriminate.
  destruct (viewerId (data w ws)) as [id|]; try discriminate.
  intros ->. reflexivity.
Qed.

Lemma ensureViewer_fails (w : World) (ws : ConnId) :
  is_viewer (data w ws) = false ->
  ensureViewer ws w
  = mkOutcome (Thrown "Only a registered viewer may perform this action") w [].
Proof.
  unfold is_viewer, ensureViewer. rewrite bind_gets.
  destruct (role (data w ws)) as [[|]|]; try reflexivity.
  destruct (viewerId (data w ws)) as [id|]; try reflexivity.
  intros ->. reflexivity.
Qed.

(** A frame whose [type] is a string is an object, and the [switch] runs. *)
Lemma message_typed (ws : ConnId) (msg : JSON) (uuid t : string) (w : World) :
  prop msg "type" = Some (JString t) ->
  message ws (Parsed msg) uuid w
  = try_catch (switch_type ws msg uuid) (fun e => ws_send ws (Error e)) w.
Proof. destruct msg; cbn; intro H; try discriminate; reflexivity. Qed.


(** ** Broadcaster loss and stop *)










(** ** Viewer loss *)

Lemma assoc_map_delete {V : Type} (k : string) (l : list (string * V)) :
  assoc k (map_delete k l) = None.
Proof.
  induction l as [|[k' v] rest IH]; cbn; [reflexivity|].
  destruct (String.eqb_spec k' k) as [->|Hne]; [exact IH|].
  cbn. apply String.eqb_neq in Hne. rewrite Hne. exact IH.
Qed.

Lemma map_delete_absent {V : Type} (k : string) (l : list (string * V)) :
  ~ In k (map fst l) -> map_delete k l = l.
Proof.
  induction l as [|[k' v] rest IH]; cbn; intro Hn; [reflexivity|].
  destruct (String.eqb_spec k' k) as [->|Hne]; [tauto|].
  rewrite IH by tauto. reflexivity.
Qed.

Lemma map_delete_length {V : Type} (k : string) (v : V) (l : list (string * V)) :
  NoDup (map fst l) -> assoc k l = Some v ->
  S (List.length (map_delete k l)) = List.length l.
Proof.
  induction l as [|[k' v'] rest IH]; cbn; intros Hnd Hk; [discriminate|].
  inversion Hnd as [|? ? Hfresh Hrest]; subst.
  destruct (String.eqb_spec k' k) as [->|Hne].
  - rewrite (map_delete_absent _ _ Hfresh). reflexivity.
  - cbn. rewrite (IH Hrest Hk). reflexivity.
Qed.

Lemma received_fanout (m : ServerMsg) (vs : list (string * ConnId)) id v :
  In (id, v) vs -> In m (received v (map (fun p => Send (snd p) m) vs)).
Proof.
  induction vs as [|[id' c] rest IH]; cbn; intro Hin; [tauto|].
  destruct Hin as [Heq|Hin].
  - inversion Heq; subst. rewrite Nat.eqb_refl. left. reflexivity.
  - destruct (Nat.eqb c v); [right|]; exact (IH Hin).
Qed.

Lemma fanout_no_viewer_left (m : ServerMsg) (vs : list (string * ConnId)) c :
  is_viewer_left m = false ->
  filter is_viewer_left (received c (map (fun p => Send (snd p) m) vs)) = [].
Proof.
  intro Hm. induction vs as [|[id' c'] rest IH]; cbn; [reflexivity|].
  destruct (Nat.eqb c' c); [cbn; rewrite Hm|]; exact IH.
Qed.

Lemma close_viewer_eq (w : World) (ws : ConnId) (V : string) :
  role (data w ws) = Some viewer ->
  viewerId (data w ws) = Some V ->
  truthy V = true ->
  let w' := set_viewerSockets (map_delete V (viewerSockets w)) w in
  close ws w
  = mkOutcome (Normal tt) w' (to_broadcaster w (ViewerLeft V) ++ count_trace w').
Proof.
  intros Hrole Hid Ht w'. unfold close.
  rewrite bind_gets, Hrole, Hid, Ht, bind_gets, bind_modify, bind_gets.
  fold w'. unfold to_broadcaster.
  change (broadcasterSocket w') with (broadcasterSocket w).
  destruct (broadcasterSocket w) as [bws|].
  - rewrite (bind_run _ _ w' tt w' [Send bws (ViewerLeft V)]) by reflexivity.
    rewrite broadcastViewerCount_eq. reflexivity.
  - rewrite bind_ret. apply broadcastViewerCount_eq.
Qed.

(** C7. When the [close] handler runs for a registered viewer V (role
    viewer, identifier V, held under V in the viewer map, whose keys are
    distinct): the handler returns normally; V is removed from the map,
    whose size drops by one to n; the broadcaster slot is untouched. The
    trace is the [viewer-left] message for V to the socket in the slot (if
    any), then [viewer-count] n to each remaining viewer in map order, then
    [viewer-count] n to the socket in the slot if it is open. So the
    broadcaster is sent exactly one [viewer-left] message, naming V; every
    remaining viewer is sent [viewer-count] n, and so is the broadcaster
    when its socket is open. *)
Theorem viewer_close_cascade (w : World) (ws : ConnId) (V : string) :
  role (data w ws) = Some viewer ->
  viewerId (data w ws) = Some V ->
  truthy V = true ->
  assoc V (viewerSockets w) = Some ws ->
  NoDup (map fst (viewerSockets w)) ->
  let r := close ws w in
  let remaining := viewerSockets (world r) in
  let n := List.length remaining in
  completion r = Normal tt /\
  remaining = map_delete V (viewerSockets w) /\
  assoc V remaining = None /\
  S n = List.length (viewerSockets w) /\
  broadcasterSocket (world r) = broadcasterSocket w /\
  effects r
  = to_broadcaster w (ViewerLeft V)
    ++ map (fun p => Send (snd p) (ViewerCount n)) remaining
    ++ match broadcasterSocket w with
       | Some bws =>
           if is_open (readyState w bws) then [Send bws (ViewerCount n)] else []
       | None => []
       end /\
  (forall bws, broadcasterSocket w = Some bws ->
     filter is_viewer_left (received bws (effects r)) = [ViewerLeft V] /\
     (readyState w bws = OPEN -> In (ViewerCount n) (received bws (effects r)))) /\
  (forall id v, In (id, v) remaining ->
     In (ViewerCount n) (received v (effects r))).
Proof.
  intros Hrole Hid Ht Hreg Hnd r remaining n. subst n remaining r.
  rewrite (close_viewer_eq _ _ _ Hrole Hid Ht).
  cbn [completion world effects]. cbn [viewerSockets set_viewerSockets].
  set (rest := map_delete V (viewerSockets w)).
  unfold count_trace.
  cbn [viewerSockets broadcasterSocket readyState set_viewerSockets]. fold rest.
  split; [reflexivity|]. split; [reflexivity|].
  split; [apply assoc_map_delete|].
  split; [exact (map_delete_length _ _ _ Hnd Hreg)|].
  split; [reflexivity|]. split; [reflexivity|]. split.
  - intros bws Hb. unfold to_broadcaster. rewrite Hb.
    rewrite !received_app. cbn [received app]. rewrite Nat.eqb_refl. split.
    + rewrite !filter_app, fanout_no_viewer_left by reflexivity.
      destruct (is_open (readyState w bws)); cbn; [rewrite Nat.eqb_refl|];
        reflexivity.
    + intro Hopen. rewrite Hopen. cbn. rewrite Nat.eqb_refl.
      right. apply in_or_app. right. left. reflexivity.
  - intros id v Hin. rewrite !received_app.
    apply in_or_app. right. apply in_or_app. left.
    exact (received_fanout _ _ _ _ Hin).
Qed.

Lemma viewer_close_cascade_witness :
  role (data demo_session 1) = Some viewer /\
  viewerId (data demo_session 1) = Some "v1" /\
  truthy "v1" = true /\
  assoc "v1" (viewerSockets demo_session) = Some 1 /\
  NoDup (map fst (viewerSockets demo_session)) /\
  effects (close 1 demo_session)
  = [Send 0 (ViewerLeft "v1"); Send 2 (ViewerCount 1); Send 0 (ViewerCount 1)].
Proof.
  assert (Hnd : NoDup (map fst (viewerSockets demo_session))).
  { cbn. repeat constructor; cbn; intuition discriminate. }
  pose proof (viewer_close_cascade demo_session 1 "v1"
                eq_refl eq_refl eq_refl eq_refl Hnd)
    as (_ & _ & _ & _ & _ & Htrace & _).
  split; [reflexivity|]. split; [reflexivity|]. split; [reflexivity|].
  split; [reflexivity|]. split; [exact Hnd|].
  exact Htrace.
Defined.

(** ** Registration *)

Lemma handleRegister_broadcaster_eq (w : World) (ws : ConnId) (uuid : string) :
  handleRegister ws (Some (JString "broadcaster")) uuid w
  = mkOutcome (Normal tt) (as_broadcaster ws w)
      (evict_trace w ++ Send ws RegisteredBroadcaster
         :: map (fun p => Send ws (ViewerJoined (fst p))) (viewerSockets w)).
Proof.
  unfold handleRegister. cbn [is_string String.eqb Ascii.eqb Bool.eqb]. cbn iota.
  rewrite bind_gets.
  assert (E : match broadcasterSocket w with
              | Some old =>
                  st <- gets (fun w => readyState w old) ;;
                  if is_open st
                  then ws_send old (Error takeover_notice) ;; ws_close old
                  else ret tt
              | None => ret tt
              end w = mkOutcome (Normal tt) (evict w) (evict_trace w)).
  { unfold evict, evict_trace, incumbent.
    destruct (broadcasterSocket w) as [old|]; [|reflexivity].
    rewrite bind_gets. destruct (is_open (readyState w old)); reflexivity. }
  rewrite (bind_run _ _ _ _ _ _ E), bind_gets, bind_modify, bind_modify, bind_send.
  rewrite bind_gets, for_each_joined. unfold as_broadcaster.
  assert (Hd : data (evict w) ws = data w ws).
  { unfold evict. destruct (incumbent w); reflexivity. }
  assert (Hv : viewerSockets (evict w) = viewerSockets w).
  { unfold evict. destruct (incumbent w); reflexivity. }
  cbn [viewerSockets set_broadcasterSocket set_data]. rewrite Hd, Hv. reflexivity.
Qed.

Lemma handleRegister_viewer_eq (w : World) (ws : ConnId) (r : JSValue) (uuid : string) :
  is_string r "broadcaster" = false ->
  handleRegister ws r uuid w
  = mkOutcome (Normal tt) (as_viewer ws uuid w)
      (Send ws (RegisteredViewer uuid (Boolean (broadcasterSocket w)))
         :: to_broadcaster w (ViewerJoined uuid)
         ++ count_trace (as_viewer ws uuid w)).
Proof.
  intro Hr. unfold handleRegister. rewrite Hr.
  rewrite bind_modify, bind_gets, bind_modify, bind_gets, bind_send.
  cbn [viewerSockets broadcasterSocket set_viewerSockets set_data].
  fold (as_viewer ws uuid w). unfold to_broadcaster.
  destruct (broadcasterSocket w) as [bws|].
  - rewrite (bind_run _ _ _ tt (as_viewer ws uuid w) [Send bws (ViewerJoined uuid)])
      by reflexivity.
    rewrite broadcastViewerCount_eq. reflexivity.
  - rewrite bind_ret, broadcastViewerCount_eq. reflexivity.
Qed.

Lemma message_register_eq (w : World) (ws : ConnId) (msg : JSON) (uuid : string) :
  prop msg "type" = Some (JString "register") ->
  message ws (Parsed msg) uuid w = handleRegister ws (prop msg "role") uuid w.
Proof.
  intro Hty. rewrite (message_typed _ _ _ _ _ Hty).
  unfold switch_type. rewrite Hty. cbn [is_string String.eqb Ascii.eqb Bool.eqb].
  cbn iota. apply (try_catch_same _ _ _ tt).
  destruct (is_string (prop msg "role") "broadcaster") eqn:Hr.
  - destruct (prop msg "role") as [[| | |s| |]|]; try discriminate.
    cbn in Hr. apply String.eqb_eq in Hr. subst s.
    rewrite handleRegister_broadcaster_eq. reflexivity.
  - rewrite (handleRegister_viewer_eq _ _ _ _ Hr). reflexivity.
Qed.


Lemma register_viewer_eq (w : World) (ws : ConnId) (uuid : string) :
  message ws (register_msg viewer) uuid w
  = mkOutcome (Normal tt) (as_viewer ws uuid w)
      (Send ws (RegisteredViewer uuid (Boolean (broadcasterSocket w)))
         :: to_broadcaster w (ViewerJoined uuid)
         ++ count_trace (as_viewer ws uuid w)).
Proof.
  unfold register_msg. rewrite message_register_eq by reflexivity.
  apply handleRegister_viewer_eq. reflexivity.
Qed.







Example takeover_run :
  effects (run (registrations [0; 1; 2]) three_open)
  = [Send 0 RegisteredBroadcaster;
     Send 0 (Error takeover_notice); Close 0; Send 1 RegisteredBroadcaster;
     Send 1 (Error takeover_notice); Close 1; Send 2 RegisteredBroadcaster].
Proof. reflexivity. Qed.




(** ** Routing *)

Lemma message_offer_eq (w : World) (ws : ConnId) (msg : JSON) (uuid : string) :
  prop msg "type" = Some (JString "offer") ->
  role (data w ws) = Some broadcaster ->
  message ws (Parsed msg) uuid w
  = mkOutcome (Normal tt) w
      match get_viewer (prop msg "viewerId") (viewerSockets w) with
      | Some viewerWs => [Send viewerWs (Offer (prop msg "viewerId") (prop msg "sdp"))]
      | None => to_broadcaster w (ViewerMissing (prop msg "viewerId"))
      end.
Proof.
  intros Hty Hrole. rewrite (message_typed _ _ _ _ _ Hty).
  unfold switch_type. rewrite Hty. cbn [is_string String.eqb Ascii.eqb Bool.eqb].
  cbn iota. apply try_catch_normal.
  rewrite (bind_run _ _ _ _ _ _ (ensureBroadcaster_ok _ _ Hrole)), after_nil.
  unfold forwardOffer, to_broadcaster. rewrite bind_gets.
  destruct (get_viewer (prop msg "viewerId") (viewerSockets w)); [reflexivity|].
  rewrite bind_gets. destruct (broadcasterSocket w); reflexivity.
Qed.

Lemma message_answer_eq (w : World) (ws : ConnId) (msg : JSON) (uuid : string) :
  prop msg "type" = Some (JString "answer") ->
  is_viewer (data w ws) = true ->
  message ws (Parsed msg) uuid w
  = mkOutcome (Normal tt) w
      (to_broadcaster w (Answer (prop msg "viewerId") (prop msg "sdp"))).
Proof.
  intros Hty Hv. rewrite (message_typed _ _ _ _ _ Hty).
  unfold switch_type. rewrite Hty. cbn [is_string String.eqb Ascii.eqb Bool.eqb].
  cbn iota. apply try_catch_normal.
  rewrite (bind_run _ _ _ _ _ _ (ensureViewer_ok _ _ Hv)), after_nil.
  unfold forwardAnswer, to_broadcaster. rewrite bind_gets.
  destruct (broadcasterSocket w); reflexivity.
Qed.








(** ** Protocol violations *)

Lemma is_string_true (v : JSValue) (lit : string) :
  is_string v lit = true -> v = Some (JString lit).
Proof.
  destruct v as [[| | |s| |]|]; cbn; try discriminate.
  intro H. apply String.eqb_eq in H. subst s. reflexivity.
Qed.

Ltac switch_on H :=
  unfold switch_type; rewrite H;
  cbn [is_string String.eqb Ascii.eqb Bool.eqb]; cbn iota.

Lemma switch_not_broadcaster (w : World) (ws : ConnId) (msg : JSON) (uuid : string) :
  needs_broadcaster msg = true ->
  role (data w ws) <> Some broadcaster ->
  switch_type ws msg uuid w
  = mkOutcome (Thrown "Only the broadcaster may perform this action") w [].
Proof.
  unfold needs_broadcaster. intros Hneed Hrole.
  pose proof (ensureBroadcaster_fails _ _ Hrole) as Hfail.
  apply orb_true_iff in Hneed. destruct Hneed as [Hneed|Hneed];
    [apply orb_true_iff in Hneed; destruct Hneed as [Hty|Hty]|
     apply andb_true_iff in Hneed; destruct Hneed as [Hty Horigin]];
    apply is_string_true in Hty; switch_on Hty.
  - exact (bind_thrown _ _ _ _ _ _ Hfail).
  - exact (bind_thrown _ _ _ _ _ _ Hfail).
  - rewrite Horigin. exact (bind_thrown _ _ _ _ _ _ Hfail).
Qed.

Lemma switch_not_viewer (w : World) (ws : ConnId) (msg : JSON) (uuid : string) :
  needs_viewer msg = true ->
  is_viewer (data w ws) = false ->
  switch_type ws msg uuid w
  = mkOutcome (Thrown "Only a registered viewer may perform this action") w [].
Proof.
  unfold needs_viewer. intros Hneed Hrole.
  pose proof (ensureViewer_fails _ _ Hrole) as Hfail.
  apply orb_true_iff in Hneed. destruct Hneed as [Hty|Hneed];
    [|apply andb_true_iff in Hneed; destruct Hneed as [Hty Horigin]];
    apply is_string_true in Hty; switch_on Hty.
  - exact (bind_thrown _ _ _ _ _ _ Hfail).
  - apply negb_true_iff in Horigin. rewrite Horigin.
    exact (bind_thrown _ _ _ _ _ _ Hfail).
Qed.

Lemma switch_unknown (w : World) (ws : ConnId) (msg : JSON) (uuid : string) :
  known_type msg = false ->
  switch_type ws msg uuid w = mkOutcome (Normal tt) w [].
Proof.
  unfold known_type, switch_type. intro H.
  repeat (apply orb_false_iff in H; let H' := fresh "H" in destruct H as [H H']).
  repeat match goal with E : is_string _ _ = false |- _ => rewrite E; clear E end.
  reflexivity.
Qed.

Lemma message_object (ws : ConnId) (msg : JSON) (uuid : string) (w : World) :
  msg <> JNull ->
  message ws (Parsed msg) uuid w
  = try_catch (switch_type ws msg uuid) (fun e => ws_send ws (Error e)) w.
Proof. destruct msg; intro H; [congruence|reflexivity..]. Qed.

Lemma needs_broadcaster_not_null msg : needs_broadcaster msg = true -> msg <> JNull.
Proof. intros H ->. discriminate H. Qed.

Lemma needs_viewer_not_null msg : needs_viewer msg = true -> msg <> JNull.
Proof. intros H ->. discriminate H. Qed.

Lemma message_returns (ws : ConnId) (raw : Inbound) (uuid : string) (w : World) :
  completion (message ws raw uuid w) = Normal tt.
Proof.
  unfold message, try_catch.
  match goal with |- context [completion (?b w)] => destruct (completion (b w)) as [[]|e] eqn:E end.
  - exact E.
  - reflexivity.
Qed.

(** C9. The [message] handler returns normally on every frame. A frame
    that is not JSON, or is the JSON [null], or is of a type reserved to the
    broadcaster (offer, stop, candidate with origin broadcaster) from a
    sender whose role is not broadcaster, or of a type reserved to viewers
    (answer, candidate with another origin) from a sender that is not a
    viewer with an identifier, has exactly one effect, an [error] message to
    the sender, and leaves the world as it was: no socket is closed, no
    other connection is sent anything, the registry is unchanged. A frame
    that parses to something other than [null] and whose type is none of
    register, offer, answer, candidate, stop has no effect at all, not even
    an [error] message, and leaves the world as it was. *)
Theorem violation_reported_to_sender (w : World) (ws : ConnId) (raw : Inbound)
    (uuid : string) :
  completion (message ws raw uuid w) = Normal tt /\
  (forall e, Rejected w ws raw e ->
     message ws raw uuid w = mkOutcome (Normal tt) w [Send ws (Error e)]) /\
  (forall msg, raw = Parsed msg -> msg <> JNull -> known_type msg = false ->
     message ws raw uuid w = mkOutcome (Normal tt) w []).
Proof.
  split; [apply message_returns|]. split.
  - intros e Hrej. destruct Hrej as [e| |msg Hneed Hrole|msg Hneed Hrole].
    + reflexivity.
    + reflexivity.
    + rewrite (message_object _ _ _ _ (needs_broadcaster_not_null _ Hneed)).
      rewrite (try_catch_thrown _ _ _ _ _ _
                 (switch_not_broadcaster _ _ _ uuid Hneed Hrole)).
      reflexivity.
    + rewrite (message_object _ _ _ _ (needs_viewer_not_null _ Hneed)).
      rewrite (try_catch_thrown _ _ _ _ _ _
                 (switch_not_viewer _ _ _ uuid Hneed Hrole)).
      reflexivity.
  - intros msg -> Hnn Hunknown. rewrite (message_object _ _ _ _ Hnn).
    apply try_catch_normal, switch_unknown, Hunknown.
Qed.

Lemma violation_reported_to_sender_witness :
  Rejected demo_session 1 stop_msg "Only the broadcaster may perform this action" /\
  message 1 stop_msg "" demo_session
  = mkOutcome (Normal tt) demo_session
      [Send 1 (Error "Only the broadcaster may perform this action")].
Proof.
  assert (Hrej : Rejected demo_session 1 stop_msg
                   "Only the broadcaster may perform this action").
  { apply rejected_not_broadcaster; [reflexivity | discriminate]. }
  split; [exact Hrej|].
  exact (proj1 (proj2 (violation_reported_to_sender demo_session 1 stop_msg ""))
           _ Hrej).
Defined.

(** C9, counterexample. A frame that is valid JSON but of no known shape,
    [{"type": "ping"}], draws no [error] message: nothing at all is sent. *)
Lemma unknown_type_not_reported :
  let r := message 1 (Parsed (JObject [("type", JString "ping")])) "" demo_session in
  known_type (JObject [("type", JString "ping")]) = false /\
  effects r = [] /\
  ~ (exists e, In (Send 1 (Error e)) (effects r)).
Proof.
  cbv zeta. split; [reflexivity|]. split; [reflexivity|].
  intros (e & H). exact H.
Qed.

(** ** A stale close after a takeover *)


(** The [close] handler of a connection whose role is broadcaster empties
    the slot whatever connection the slot holds. *)
Lemma close_broadcaster_ignores_slot (w : World) (ws : ConnId) :
  role (data w ws) = Some broadcaster ->
  broadcasterSocket (world (close ws w)) = None /\
  viewerSockets (world (close ws w)) = [] /\
  effects (close ws w) = ended (viewerSockets w).
Proof.
  intro Hrole. rewrite (close_broadcaster_eq _ _ Hrole). cbn.
  rewrite close_all_broadcasterSocket. repeat split; reflexivity.
Qed.

(** ** Every outcome of the [message] handler *)

Lemma message_not_broadcaster (w : World) (ws : ConnId) (msg : JSON) (uuid : string) :
  needs_broadcaster msg = true ->
  role (data w ws) <> Some broadcaster ->
  message ws (Parsed msg) uuid w
  = mkOutcome (Normal tt) w
      [Send ws (Error "Only the broadcaster may perform this action")].
Proof.
  intros Hneed Hrole.
  rewrite (message_object _ _ _ _ (needs_broadcaster_not_null _ Hneed)).
  rewrite (try_catch_thrown _ _ _ _ _ _
             (switch_not_broadcaster _ _ _ uuid Hneed Hrole)).
  reflexivity.
Qed.

Lemma message_not_viewer (w : World) (ws : ConnId) (msg : JSON) (uuid : string) :
  needs_viewer msg = true ->
  is_viewer (data w ws) = false ->
  message ws (Parsed msg) uuid w
  = mkOutcome (Normal tt) w
      [Send ws (Error "Only a registered viewer may perform this action")].
Proof.
  intros Hneed Hrole.
  rewrite (message_object _ _ _ _ (needs_viewer_not_null _ Hneed)).
  rewrite (try_catch_thrown _ _ _ _ _ _
             (switch_not_viewer _ _ _ uuid Hneed Hrole)).
  reflexivity.
Qed.

Lemma message_candidate_down_eq (w : World) (ws : ConnId) (msg : JSON) (uuid : string) :
  prop msg "type" = Some (JString "candidate") ->
  is_string (prop msg "origin") "broadcaster" = true ->
  role (data w ws) = Some broadcaster ->
  message ws (Parsed msg) uuid w
  = mkOutcome (Normal tt) w
      match get_viewer (prop msg "viewerId") (viewerSockets w) with
      | Some viewerWs =>
          [Send viewerWs
             (Candidate (prop msg "viewerId") (prop msg "candidate") broadcaster)]
      | None => []
      end.
Proof.
  intros Hty Horigin Hrole. rewrite (message_typed _ _ _ _ _ Hty).
  switch_on Hty. rewrite Horigin. apply try_catch_normal.
  rewrite (bind_run _ _ _ _ _ _ (ensureBroadcaster_ok _ _ Hrole)), after_nil.
  unfold forwardCandidateToViewer. rewrite bind_gets.
  destruct (get_viewer (prop msg "viewerId") (viewerSockets w)); reflexivity.
Qed.

Lemma message_candidate_up_eq (w : World) (ws : ConnId) (msg : JSON) (uuid : string) :
  prop msg "type" = Some (JString "candidate") ->
  is_string (prop msg "origin") "broadcaster" = false ->
  is_viewer (data w ws) = true ->
  message ws (Parsed msg) uuid w
  = mkOutcome (Normal tt) w
      (to_broadcaster w
         (Candidate (prop msg "viewerId") (prop msg "candidate") viewer)).
Proof.
  intros Hty Horigin Hv. rewrite (message_typed _ _ _ _ _ Hty).
  switch_on Hty. rewrite Horigin. apply try_catch_normal.
  rewrite (bind_run _ _ _ _ _ _ (ensureViewer_ok _ _ Hv)), after_nil.
  unfold forwardCandidateToBroadcaster, to_broadcaster. rewrite bind_gets.
  destruct (broadcasterSocket w); reflexivity.
Qed.

Lemma role_broadcaster_dec (d : ConnectionData) :
  {role d = Some broadcaster} + {role d <> Some broadcaster}.
Proof. destruct (role d) as [[|]|]; [left; reflexivity | right; discriminate..]. Qed.

(** One outcome: nothing, or a single relayed message. *)
Lemma relayed_to_broadcaster (w : World) (m : ServerMsg) :
  is_relayed m = true ->
  to_broadcaster w m = [] \/
  exists c, to_broadcaster w m = [Send c m].
Proof.
  intros _. unfold to_broadcaster.
  destruct (broadcasterSocket w) as [bws|]; [right; exists bws|left]; reflexivity.
Qed.

(** A forwarding message ends silently or with one relayed message, and
    leaves the world as it was. *)
Lemma routing_outcome (ws : ConnId) (msg : JSON) (uuid : string) (w : World) :
  is_routing msg = true ->
  exists es,
    message ws (Parsed msg) uuid w = mkOutcome (Normal tt) w es /\
    (es = [] \/ exists c m, is_relayed m = true /\ es = [Send c m]).
Proof.
  assert (Hb : forall m, is_relayed m = true ->
            to_broadcaster w m = [] \/
            exists c m', is_relayed m' = true /\ to_broadcaster w m = [Send c m']).
  { intros m Hm. destruct (relayed_to_broadcaster w m Hm) as [E|(c & E)];
      [left; exact E | right; exists c, m; auto]. }
  unfold is_routing. intro H.
  apply orb_true_iff in H. destruct H as [H|Hcand];
    [apply orb_true_iff in H; destruct H as [Hoffer|Hanswer]|].
  - destruct (role_broadcaster_dec (data w ws)) as [Hrole|Hrole].
    + apply is_string_true in Hoffer.
      eexists. split; [exact (message_offer_eq _ _ _ _ Hoffer Hrole)|].
      destruct (get_viewer _ _); [right; eexists _, _; split; [|reflexivity]; reflexivity|].
      apply Hb. reflexivity.
    + eexists. split.
      * apply message_not_broadcaster; [|exact Hrole].
        unfold needs_broadcaster. rewrite Hoffer. reflexivity.
      * right; eexists _, _; split; [|reflexivity]; reflexivity.
  - destruct (is_viewer (data w ws)) eqn:Hv.
    + apply is_string_true in Hanswer.
      eexists. split; [exact (message_answer_eq _ _ _ _ Hanswer Hv)|].
      apply Hb. reflexivity.
    + eexists. split.
      * apply message_not_viewer; [|exact Hv].
        unfold needs_viewer. rewrite Hanswer. reflexivity.
      * right; eexists _, _; split; [|reflexivity]; reflexivity.
  - destruct (is_string (prop msg "origin") "broadcaster") eqn:Horigin.
    + destruct (role_broadcaster_dec (data w ws)) as [Hrole|Hrole].
      * apply is_string_true in Hcand.
        eexists. split;
          [exact (message_candidate_down_eq _ _ _ _ Hcand Horigin Hrole)|].
        destruct (get_viewer _ _); [right; eexists _, _; split; [|reflexivity]; reflexivity|].
        left; reflexivity.
      * eexists. split.
        { apply message_not_broadcaster; [|exact Hrole].
          unfold needs_broadcaster. rewrite Hcand, Horigin. apply orb_true_r. }
        right; eexists _, _; split; [|reflexivity]; reflexivity.
    + destruct (is_viewer (data w ws)) eqn:Hv.
      * apply is_string_true in Hcand.
        eexists. split;
          [exact (message_candidate_up_eq _ _ _ _ Hcand Horigin Hv)|].
        apply Hb. reflexivity.
      * eexists. split.
        { apply message_not_viewer; [|exact Hv].
          unfold needs_viewer. rewrite Hcand, Horigin. apply orb_true_r. }
        right; eexists _, _; split; [|reflexivity]; reflexivity.
Qed.



(** ** Every outcome of the [close] handler *)

Lemma close_silent (w : World) (ws : ConnId) :
  role (data w ws) <> Some broadcaster ->
  is_viewer (data w ws) = false ->
  close ws w = mkOutcome (Normal tt) w [].
Proof.
  unfold is_viewer, close. intros Hrole Hv. rewrite bind_gets.
  destruct (role (data w ws)) as [[|]|]; [congruence| |reflexivity].
  destruct (viewerId (data w ws)) as [id|]; [|reflexivity].
  rewrite Hv. reflexivity.
Qed.



(** ** What a trace can hold *)











(** ** The keys of the viewer map *)


Lemma map_set_fresh {V : Type} (k : string) (v : V) (l : list (string * V)) :
  assoc k l = None -> map_set k v l = l ++ [(k, v)].
Proof.
  induction l as [|[k' v'] rest IH]; cbn; [reflexivity|].
  destruct (String.eqb k' k); [discriminate|].
  intro H. rewrite (IH H). reflexivity.
Qed.

Lemma map_set_present {V : Type} (k : string) (v old : V) (l : list (string * V)) :
  assoc k l = Some old ->
  map fst (map_set k v l) = map fst l /\
  List.length (map_set k v l) = List.length l.
Proof.
  induction l as [|[k' v'] rest IH]; cbn; [discriminate|].
  destruct (String.eqb k' k); [split; reflexivity|].
  intro H. destruct (IH H) as [Hk Hl]. cbn. rewrite Hk, Hl. split; reflexivity.
Qed.

Lemma assoc_map_set {V : Type} (k : string) (v : V) (l : list (string * V)) :
  assoc k (map_set k v l) = Some v.
Proof.
  induction l as [|[k' v'] rest IH]; cbn; [rewrite String.eqb_refl; reflexivity|].
  destruct (String.eqb k' k) eqn:E; cbn; rewrite E; [reflexivity|exact IH].
Qed.

Lemma assoc_map_set_other {V : Type} (k k' : string) (v : V) (l : list (string * V)) :
  k' <> k -> assoc k' (map_set k v l) = assoc k' l.
Proof.
  intro Hne. induction l as [|[k0 v0] rest IH]; cbn.
  - apply String.eqb_neq in Hne. rewrite String.eqb_sym in Hne.
    rewrite Hne. reflexivity.
  - destruct (String.eqb_spec k0 k) as [->|H0]; cbn.
    + apply String.eqb_neq in Hne. rewrite String.eqb_sym in Hne.
      rewrite Hne. reflexivity.
    + destruct (String.eqb k0 k'); [reflexivity|exact IH].
Qed.




Lemma map_delete_sockets (k : string) (l : list (string * ConnId)) c :
  In c (sockets (map_delete k l)) -> In c (sockets l).
Proof.
  unfold sockets. induction l as [|[k0 v0] rest IH]; cbn; [tauto|].
  destruct (String.eqb k0 k); cbn; tauto.
Qed.

(** ** What holds of every event *)
























(** ** Forwarding *)

(** X6. A frame of type offer, answer or candidate never changes the relay:
    whoever sends it and whatever it carries, the world after the handler is
    the world before, no socket is closed, and at most one message is sent,
    which is a relayed message or an [error]. *)
Theorem routing_changes_nothing (w : World) (ws : ConnId) (msg : JSON) (uuid : string) :
  is_routing msg = true ->
  let r := message ws (Parsed msg) uuid w in
  completion r = Normal tt /\
  world r = w /\
  (effects r = [] \/
   exists c m, is_relayed m = true /\ effects r = [Send c m]).
Proof.
  intros H r. subst r.
  destruct (routing_outcome ws msg uuid w H) as (es & E & Hes). rewrite E.
  split; [reflexivity|]. split; [reflexivity|exact Hes].
Qed.

Lemma routing_changes_nothing_witness :
  is_routing (JObject [("type", JString "candidate")]) = true /\
  world (message 5 (Parsed (JObject [("type", JString "candidate")])) ""
           demo_session)
  = demo_session.
Proof.
  split; [reflexivity|].
  exact (proj1 (proj2 (routing_changes_nothing demo_session 5
                         (JObject [("type", JString "candidate")]) "" eq_refl))).
Defined.











(** ** Joining and leaving *)






(** X13. A register frame whose role is anything but the string
    "broadcaster" (the string "viewer", any other value, or no role at all)
    registers a viewer. With an identifier that the map does not hold yet:
    the sender's data become role viewer with that identifier, the entry is
    appended to the map, whose size grows by one to n, the broadcaster slot
    and every [readyState] are as before; the trace is the [registered]
    confirmation to the sender (with whether the slot holds a socket), then
    [viewer-joined] to the socket in the slot if any, then [viewer-count] n
    to every viewer, the newcomer last, then to the socket in the slot if it
    is open. *)
Theorem viewer_registration (w : World) (ws : ConnId) (msg : JSON) (uuid : string) :
  prop msg "type" = Some (JString "register") ->
  is_string (prop msg "role") "broadcaster" = false ->
  assoc uuid (viewerSockets w) = None ->
  let r := message ws (Parsed msg) uuid w in
  let n := S (List.length (viewerSockets w)) in
  data (world r) ws = mkData (Some viewer) (Some uuid) /\
  viewerSockets (world r) = viewerSockets w ++ [(uuid, ws)] /\
  broadcasterSocket (world r) = broadcasterSocket w /\
  (forall c, readyState (world r) c = readyState w c) /\
  effects r
  = Send ws (RegisteredViewer uuid (Boolean (broadcasterSocket w)))
    :: to_broadcaster w (ViewerJoined uuid)
    ++ map (fun p => Send (snd p) (ViewerCount n)) (viewerSockets w ++ [(uuid, ws)])
    ++ match broadcasterSocket w with
       | Some bws =>
           if is_open (readyState w bws) then [Send bws (ViewerCount n)] else []
       | None => []
       end.
Proof.
  intros Hty Hrole Hfresh r n. subst r n.
  rewrite (message_register_eq _ _ _ _ Hty), (handleRegister_viewer_eq _ _ _ _ Hrole).
  cbn [world effects]. unfold count_trace, as_viewer.
  cbn [viewerSockets broadcasterSocket readyState data set_viewerSockets set_data].
  rewrite (map_set_fresh _ _ _ Hfresh).
  split; [unfold upd; rewrite Nat.eqb_refl; reflexivity|].
  split; [reflexivity|]. split; [reflexivity|]. split; [reflexivity|].
  rewrite length_app. cbn [List.length]. rewrite Nat.add_1_r. reflexivity.
Qed.

Lemma viewer_registration_witness :
  prop (JObject [("type", JString "register")]) "type" = Some (JString "register") /\
  is_string (prop (JObject [("type", JString "register")]) "role") "broadcaster"
  = false /\
  assoc "v3" (viewerSockets demo_session) = None /\
  effects (message 3 (Parsed (JObject [("type", JString "register")])) "v3"
             demo_session)
  = [Send 3 (RegisteredViewer "v3" true); Send 0 (ViewerJoined "v3");
     Send 1 (ViewerCount 3); Send 2 (ViewerCount 3); Send 3 (ViewerCount 3);
     Send 0 (ViewerCount 3)].
Proof.
  pose proof (viewer_registration demo_session 3
                (JObject [("type", JString "register")]) "v3"
                eq_refl eq_refl eq_refl)
    as (_ & _ & _ & _ & Htrace).
  split; [reflexivity|]. split; [reflexivity|]. split; [reflexivity|].
  exact Htrace.
Defined.

(** X14. When the identifier handed to a registering viewer is already a
    key of the map, the entry is overwritten in place: the keys and the size
    of the map are as before, the identifier now leads to the newcomer, and
    every other identifier leads where it led. *)
Theorem viewer_registration_reuses_entry (w : World) (ws old : ConnId) (uuid : string) :
  assoc uuid (viewerSockets w) = Some old ->
  let r := message ws (register_msg viewer) uuid w in
  viewer_ids (world r) = viewer_ids w /\
  List.length (viewerSockets (world r)) = List.length (viewerSockets w) /\
  assoc uuid (viewerSockets (world r)) = Some ws /\
  (forall id, id <> uuid ->
     assoc id (viewerSockets (world r)) = assoc id (viewerSockets w)).
Proof.
  intros Hold r. subst r. rewrite register_viewer_eq. cbn [world].
  unfold viewer_ids, as_viewer. cbn [viewerSockets set_viewerSockets set_data].
  destruct (map_set_present uuid ws old _ Hold) as [Hk Hl].
  split; [exact Hk|]. split; [exact Hl|]. split; [apply assoc_map_set|].
  intros id Hne. apply assoc_map_set_other, Hne.
Qed.

Lemma viewer_registration_reuses_entry_witness :
  assoc "v1" (viewerSockets demo_session) = Some 1 /\
  assoc "v1" (viewerSockets
                (world (message 3 (register_msg viewer) "v1" demo_session)))
  = Some 3 /\
  List.length (viewerSockets
                 (world (message 3 (register_msg viewer) "v1" demo_session)))
  = 2.
Proof.
  pose proof (viewer_registration_reuses_entry demo_session 3 1 "v1" eq_refl)
    as (_ & Hlen & Hnew & _).
  split; [reflexivity|]. split; [exact Hnew | exact Hlen].
Defined.








(** X18. The close event of a connection that is neither a broadcaster nor
    a viewer with a non-empty identifier (it never registered, say) passes
    unnoticed: nothing is sent, and the registry and every connection's data
    are as before; only the socket's own [readyState] has moved to closed. *)
Theorem close_of_unregistered_is_silent (w : World) (ws : ConnId) :
  role (data w ws) <> Some broadcaster ->
  is_viewer (data w ws) = false ->
  dispatch (Closed ws) w
  = mkOutcome (Normal tt) (set_readyState ws CLOSED w) [].
Proof.
  intros Hrole Hv. cbn [dispatch]. rewrite bind_modify.
  apply close_silent; assumption.
Qed.

Lemma close_of_unregistered_is_silent_witness :
  role (data three_open 1) <> Some broadcaster /\
  is_viewer (data three_open 1) = false /\
  effects (dispatch (Closed 1) three_open) = [].
Proof.
  assert (Hrole : role (data three_open 1) <> Some broadcaster) by discriminate.
  split; [exact Hrole|]. split; [reflexivity|].
  exact (f_equal effects
           (close_of_unregistered_is_silent three_open 1 Hrole eq_refl)).
Defined.

(** ** Serving files *)

Lemma serveFile_file (h : Host) (pathname path : string) :
  body (serveFile h pathname) = FileBody path ->
  path = resolve_join h pathname /\
  status (serveFile h pathname) = 200 /\
  String.prefix (PUBLIC_DIR h) path = true /\
  file_exists h path = true.
Proof.
  unfold serveFile.
  destruct (String.prefix (PUBLIC_DIR h) (resolve_join h pathname)) eqn:Hp;
    cbn; [|discriminate].
  destruct (file_exists h (resolve_join h pathname)) eqn:He; cbn; [|discriminate].
  intro H. inversion H; subst. auto.
Qed.

(** X19. Whatever the path requested, when [fetch] answers with a file the
    status is 200, the file exists, and the path it was resolved to starts
    with [PUBLIC_DIR]; and a request to /ws never reads a file. *)
Theorem fetch_serves_only_public (h : Host) (pathname path : string) :
  body (fetch h pathname) = FileBody path ->
  status (fetch h pathname) = 200 /\
  String.prefix (PUBLIC_DIR h) path = true /\
  file_exists h path = true /\
  pathname <> "/ws".
Proof.
  unfold fetch. destruct (String.eqb_spec pathname "/ws") as [->|Hws].
  - unfold promoteToWebSocket. destruct (upgrade h); discriminate.
  - intro H.
    assert (Hs : exists p, body (serveFile h p) = FileBody path /\
                           status (serveFile h p) = status
                             (if String.eqb pathname "/" then serveFile h "index.html"
                              else if String.eqb pathname "/viewer"
                                   then serveFile h "viewer.html"
                                   else serveFile h (strip_leading_slashes pathname))).
    { destruct (String.eqb pathname "/"); [eauto|].
      destruct (String.eqb pathname "/viewer"); eauto. }
    destruct Hs as (p & Hbody & Hstatus).
    destruct (serveFile_file _ _ _ Hbody) as (_ & H200 & Hp & He).
    rewrite <- Hstatus. auto.
Qed.

Lemma fetch_serves_only_public_witness :
  body (fetch demo_host "/js/viewer.js") = FileBody "/app/public/js/viewer.js" /\
  status (fetch demo_host "/js/viewer.js") = 200.
Proof.
  assert (Hb : body (fetch demo_host "/js/viewer.js")
               = FileBody "/app/public/js/viewer.js") by reflexivity.
  split; [exact Hb|].
  exact (proj1 (fetch_serves_only_public demo_host "/js/viewer.js" _ Hb)).
Defined.

(** X20. Leading slashes of an asset path do not count: a path that starts
    with two slashes is never one of the three fixed routes, and is served
    as the file named by the path without its leading slashes; so is a path
    with one leading slash that is not /ws, / or /viewer. In particular
    //ws does not upgrade and //viewer is not the viewer page. *)
Theorem fetch_ignores_leading_slashes (h : Host) (p : string) :
  fetch h (String slash (String slash p))
  = serveFile h (strip_leading_slashes p) /\
  (String slash p <> "/ws" -> String slash p <> "/" -> String slash p <> "/viewer" ->
   fetch h (String slash p) = serveFile h (strip_leading_slashes p)).
Proof.
  split.
  - unfold fetch. cbn.
    destruct p as [|c p']; reflexivity.
  - intros Hws Hroot Hviewer. unfold fetch.
    apply String.eqb_neq in Hws, Hroot, Hviewer.
    rewrite Hws, Hroot, Hviewer. reflexivity.
Qed.

Lemma fetch_ignores_leading_slashes_witness :
  fetch demo_host "//js/viewer.js" = fetch demo_host "/js/viewer.js" /\
  fetch demo_host "//viewer" = mkResponse 404 (TextBody "Not Found").
Proof.
  destruct (fetch_ignores_leading_slashes demo_host "js/viewer.js") as [H2 H1].
  split; [|reflexivity].
  change (fetch demo_host (String slash (String slash "js/viewer.js"))
          = fetch demo_host (String slash "js/viewer.js")).
  rewrite H2, H1; [reflexivity|discriminate..].
Defined.
